(** * EchosenseAPI: the browser-side client of the Echosense backend

    A shallow embedding of [frontend/js/api.js].  The class [EchosenseAPI]
    wraps the platform's [fetch]: one generic helper [_fetch], a multipart
    upload [uploadAudio] and ten one-line wrappers.  The JavaScript is
    rendered in a small state-and-exception monad whose state holds the
    client object ([this]) and the trace of the observable effects
    (calls of [fetch], calls of [console.error]). *)

From stdpp Require Import base strings gmap list pretty.

Open Scope string_scope.
Open Scope list_scope.

(** ** JavaScript numbers

    The client never computes with numbers: it turns them into text
    (template literals, [new Error]) and tests them for truthiness.  The
    Number type is therefore an interface with exactly these operations;
    [num_of_Z] reads an integer literal of the source. *)

Class Number (num : Type) := {
  num_of_Z : Z → num;
  num_to_string : num → string;
  num_to_boolean : num → bool;
  num_to_string_of_Z :
    ∀ z : Z, (Z.abs z ≤ 2 ^ 53)%Z → num_to_string (num_of_Z z) = pretty z
}.

(** Integral numbers, printed in decimal; zero is the only falsy one. *)
#[global, refine] Instance int_Number : Number Z := {|
  num_of_Z z := z;
  num_to_string z := pretty z;
  num_to_boolean z := negb (z =? 0)%Z
|}.
Proof. reflexivity. Defined.

(** ** Values thrown by the program or by the platform *)

Inductive thrown :=
  | Error (message : string)
      (* [new Error(message)], lines 28 and 55 *)
  | TypeError_property (prop : string)
      (* the engine's TypeError for reading a property of [null] *)
  | TypeError_primitive
      (* the engine's TypeError when ToPrimitive finds no primitive *)
  | Rejection (name message : string).
      (* the reason of a promise rejected by [fetch] or [response.json()] *)

Section Client.
Context {num : Type} `{Number num}.
(** The [File] objects handed to [uploadAudio]. *)
Context {File : Type}.

(** ** JSON values: what [response.json()] can resolve with *)

#[warnings="-register-all"]
Inductive json_value :=
  | JNull
  | JBool (b : bool)
  | JNum (n : num)
  | JString (s : string)
  | JArray (l : list json_value)
  | JObject (o : gmap string json_value).

(** ToBoolean, the test made by [||]. *)
Definition to_boolean (v : json_value) : bool :=
  match v with
  | JNull => false
  | JBool b => b
  | JNum n => num_to_boolean n
  | JString s => negb (String.eqb s "")
  | JArray _ | JObject _ => true
  end.

(** ToString, applied by [new Error] to its argument.  An array is joined
    with commas, a [null] element giving the empty string.  A plain object
    inherits [Object.prototype.toString] unless it has a property
    [toString] of its own, which (coming from JSON) is not callable: then
    no primitive is found. *)
Fixpoint to_string (v : json_value) : thrown + string :=
  match v with
  | JNull => inr "null"
  | JBool b => inr (if b then "true" else "false")
  | JNum n => inr (num_to_string n)
  | JString s => inr s
  | JArray l =>
      (fix join (l : list json_value) (sep : string) : thrown + string :=
         match l with
         | [] => inr ""
         | x :: l' =>
             match
               match x with
               | JNull => inr ""
               | _ => to_string x
               end
             with
             | inl e => inl e
             | inr s =>
                 match join l' "," with
                 | inl e => inl e
                 | inr r => inr (sep +:+ s +:+ r)
                 end
             end
         end) l ""
  | JObject o =>
      if decide (is_Some (o !! "toString")) then inl TypeError_primitive
      else inr "[object Object]"
  end.

(** The loop of [Array.prototype.join] inside [to_string], by itself:
    [to_string (JArray l)] is [join_elements l ""]. *)
Definition join_elements : list json_value → string → thrown + string :=
  fix join (l : list json_value) (sep : string) : thrown + string :=
    match l with
    | [] => inr ""
    | x :: l' =>
        match
          match x with
          | JNull => inr ""
          | _ => to_string x
          end
        with
        | inl e => inl e
        | inr s =>
            match join l' "," with
            | inl e => inl e
            | inr r => inr (sep +:+ s +:+ r)
            end
        end
    end.

(** How an element of an array reads inside [join]: [null] as the empty
    string, anything else by ToString. *)
Definition element_reads (x : json_value) (text : string) : Prop :=
  match x with
  | JNull => text = ""
  | _ => to_string x = inr text
  end.

(** The property read [error.detail]; [None] is [undefined].  Reading
    from [null] throws; a primitive or an array has no such property
    (none of the built-in prototypes defines [detail]); an object gives
    its own property. *)
Definition get_detail (error : json_value) : thrown + option json_value :=
  match error with
  | JNull => inl (TypeError_property "detail")
  | JBool _ | JNum _ | JString _ | JArray _ => inr None
  | JObject o => inr (o !! "detail")
  end.

(** A body from which [error.detail] reads [undefined]: any JSON value
    but [null] that is not an object with a [detail] member. *)
Definition lacks_detail (body : json_value) : Prop :=
  body ≠ JNull ∧ ∀ o, body = JObject o → o !! "detail" = None.

(** [a || b], for a property value [a]. *)
Definition or_else (a : option json_value) (b : json_value) : json_value :=
  match a with
  | Some v => if to_boolean v then v else b
  | None => b
  end.

(** ** Requests and responses *)

(** A [FormData]: its entries in the order they were appended. *)
Definition FormData : Type := list (string * File).

(** [new FormData()] and [formData.append(name, value)]. *)
Definition new_FormData : FormData := [].
Definition append (fd : FormData) (name : string) (value : File)
    : FormData :=
  fd ++ [(name, value)].

Inductive BodyInit :=
  | BodyText (s : string)
  | BodyForm (fd : FormData).

(** The [options] / init object of [fetch], with the three keys the
    program uses; [None] is an absent key. *)
Record RequestInit := {
  method : option string;
  body : option BodyInit;
  headers : option (gmap string string)
}.

(** [{}], the default of [options]. *)
Definition no_options : RequestInit :=
  {| method := None; body := None; headers := None |}.

(** The parts of a [Response] the program reads: the status code and
    what the promise of [response.json()] settles to. *)
Record Response := {
  status : N;
  body_json : thrown + json_value
}.

(** [response.ok]: the status is in the range 200-299. *)
Definition ok (r : Response) : bool :=
  bool_decide (200 ≤ status r ≤ 299)%N.

(** ** The client object and the monad *)

(** Line 6. *)
Definition API_BASE_URL : string := "http://localhost:8000".

Record EchosenseAPI := { baseUrl : string }.

(** Lines 9-11; [None] is an omitted argument. *)
Definition constructor (baseUrl : option string) : EchosenseAPI :=
  {| baseUrl := default API_BASE_URL baseUrl |}.

Inductive event :=
  | Fetch (url : string) (init : RequestInit)
  | ConsoleError (label : string) (e : thrown).

Record world := {
  this : EchosenseAPI;
  trace : list event
}.

Inductive completion (A : Type) :=
  | Normal (a : A)
  | Throw (e : thrown).
#[global] Arguments Normal {A} a.
#[global] Arguments Throw {A} e.

Definition M (A : Type) : Type := world → completion A * world.

Definition ret {A} (a : A) : M A := λ w, (Normal a, w).
Definition throw {A} (e : thrown) : M A := λ w, (Throw e, w).
Definition bind {A B} (m : M A) (k : A → M B) : M B :=
  λ w, match m w with
       | (Normal a, w') => k a w'
       | (Throw e, w') => (Throw e, w')
       end.
(** [try { m } catch (error) { h error }], and [promise.catch(h)]. *)
Definition try_catch {A} (m : M A) (h : thrown → M A) : M A :=
  λ w, match m w with
       | (Normal a, w') => (Normal a, w')
       | (Throw e, w') => h e w'
       end.
Definition lift {A} (r : thrown + A) : M A :=
  match r with inl e => throw e | inr a => ret a end.
Definition get_this : M EchosenseAPI := λ w, (Normal (this w), w).
Definition emit (ev : event) : M unit :=
  λ w, (Normal (), {| this := this w; trace := trace w ++ [ev] |}).

#[global] Instance M_ret : MRet M := @ret.
#[global] Instance M_bind : MBind M := λ A B k m, bind m k.

(** The backend behind [fetch]: for a URL and an init object, the
    promise rejects with a reason or resolves with a response. *)
Context (backend : string → RequestInit → thrown + Response).

Definition fetch (url : string) (init : RequestInit) : M Response :=
  emit (Fetch url init);; lift (backend url init).

(** [response.json()] *)
Definition json (response : Response) : M json_value :=
  lift (body_json response).

Definition console_error (label : string) (e : thrown) : M unit :=
  emit (ConsoleError label e).

(** [new Error(v)]: the message is ToString(v). *)
Definition new_Error (v : json_value) : M thrown :=
  s ← lift (to_string v); mret (Error s).

(** ** The class [EchosenseAPI] *)

(** The object literal of lines 20-23: the default first, then the
    spread of [options.headers], whose keys replace equal ones. *)
Definition merge_headers (options : RequestInit) : gmap string string :=
  default ∅ (headers options) ∪ {[ "Content-Type" := "application/json" ]}.

(** The object literal of lines 18-24: the spread of [options], then
    the key [headers]. *)
Definition fetch_init (options : RequestInit) : RequestInit :=
  {| method := method options;
     body := body options;
     headers := Some (merge_headers options) |}.

(** Lines 16-36. *)
Definition _fetch (endpoint : string) (options : RequestInit)
    : M json_value :=
  try_catch
    (self ← get_this;
     response ← fetch (baseUrl self +:+ endpoint) (fetch_init options);
     if negb (ok response) then
       error ← try_catch (json response)
                 (λ _, mret (JObject {[ "detail" := JString "Unknown error" ]}));
       detail ← lift (get_detail error);
       e ← new_Error
             (or_else detail
                (JString ("HTTP " +:+ pretty (status response))));
       throw e
     else json response)
    (λ error,
       console_error ("API Error [" +:+ endpoint +:+ "]:") error;;
       throw error).

(** Lines 43-63. *)
Definition uploadAudio (file : File) : M json_value :=
  let formData := append new_FormData "file" file in
  try_catch
    (self ← get_this;
     response ← fetch (baseUrl self +:+ "/api/upload/audio")
                  {| method := Some "POST";
                     body := Some (BodyForm formData);
                     headers := None |};
     if negb (ok response) then
       error ← try_catch (json response)
                 (λ _, mret (JObject {[ "detail" := JString "Upload failed" ]}));
       detail ← lift (get_detail error);
       e ← new_Error
             (or_else detail
                (JString ("HTTP " +:+ pretty (status response))));
       throw e
     else json response)
    (λ error,
       console_error "Upload Error:" error;;
       throw error).

(** Lines 70-72, 79-81, 88-90, 97-99 and 106-108. *)
Definition getProcessingStatus (callId : string) : M json_value :=
  _fetch ("/api/processing/status/" +:+ callId) no_options.

Definition getTranscript (callId : string) : M json_value :=
  _fetch ("/api/processing/transcript/" +:+ callId) no_options.

Definition getQualityScore (callId : string) : M json_value :=
  _fetch ("/api/processing/quality/" +:+ callId) no_options.

Definition getComplianceFlags (callId : string) : M json_value :=
  _fetch ("/api/processing/compliance/" +:+ callId) no_options.

Definition getFullReport (callId : string) : M json_value :=
  _fetch ("/api/processing/full-report/" +:+ callId) no_options.

(** Lines 115-117, 124-126 and 133-135.  An omitted argument ([None])
    takes the default of the parameter list. *)
Definition getDashboardStats (days : option num) : M json_value :=
  let days := default (num_of_Z 7) days in
  _fetch ("/api/analytics/dashboard?days=" +:+ num_to_string days)
    no_options.

Definition getRecentCalls (limit : option num) : M json_value :=
  let limit := default (num_of_Z 10) limit in
  _fetch ("/api/analytics/recent-calls?limit=" +:+ num_to_string limit)
    no_options.

Definition getQualityTrends (days : option num) : M json_value :=
  let days := default (num_of_Z 30) days in
  _fetch ("/api/analytics/quality-trends?days=" +:+ num_to_string days)
    no_options.

(** Lines 142-146. *)
Definition deleteCall (callId : string) : M json_value :=
  _fetch ("/api/calls/" +:+ callId)
    {| method := Some "DELETE"; body := None; headers := None |}.

(** Lines 153-155. *)
Definition getComplianceSummary (days : option num) : M json_value :=
  let days := default (num_of_Z 7) days in
  _fetch ("/api/analytics/compliance-summary?days=" +:+ num_to_string days)
    no_options.

(** ** The public interface: one constructor per method of the class *)

Inductive operation :=
  | UploadAudio (file : File)
  | GetProcessingStatus (callId : string)
  | GetTranscript (callId : string)
  | GetQualityScore (callId : string)
  | GetComplianceFlags (callId : string)
  | GetFullReport (callId : string)
  | GetDashboardStats (days : option num)
  | GetRecentCalls (limit : option num)
  | GetQualityTrends (days : option num)
  | DeleteCall (callId : string)
  | GetComplianceSummary (days : option num).

Definition invoke (op : operation) : M json_value :=
  match op with
  | UploadAudio file => uploadAudio file
  | GetProcessingStatus callId => getProcessingStatus callId
  | GetTranscript callId => getTranscript callId
  | GetQualityScore callId => getQualityScore callId
  | GetComplianceFlags callId => getComplianceFlags callId
  | GetFullReport callId => getFullReport callId
  | GetDashboardStats days => getDashboardStats days
  | GetRecentCalls limit => getRecentCalls limit
  | GetQualityTrends days => getQualityTrends days
  | DeleteCall callId => deleteCall callId
  | GetComplianceSummary days => getComplianceSummary days
  end.

Definition is_upload (op : operation) : bool :=
  match op with UploadAudio _ => true | _ => false end.

(** ** Observations on a run *)

(** The calls of [fetch] in a trace, in order. *)
Definition fetches (t : list event) : list (string * RequestInit) :=
  omap (λ ev, match ev with
              | Fetch url init => Some (url, init)
              | ConsoleError _ _ => None
              end) t.

(** The calls of [console.error] in a trace, in order. *)
Definition logged (t : list event) : list (string * thrown) :=
  omap (λ ev, match ev with
              | Fetch _ _ => None
              | ConsoleError label e => Some (label, e)
              end) t.

(** The HTTP method of a request: [fetch] sends GET unless the init
    object names another. *)
Definition request_method (init : RequestInit) : string :=
  default "GET" (method init).

(** The value of a header of a request, if the init object has it. *)
Definition request_header (init : RequestInit) (name : string)
    : option string :=
  default ∅ (headers init) !! name.

(** What the handler of a method logs for a completion: nothing for a
    value, the thrown error under the method's label otherwise. *)
Definition reported (label : string) (c : completion json_value)
    : list event :=
  match c with
  | Normal _ => []
  | Throw e => [ConsoleError label e]
  end.

(** The state after one exchange: the same client, the trace extended
    by the call of [fetch] and by what the handler logged. *)
Definition after (w : world) (url : string) (init : RequestInit)
    (label : string) (c : completion json_value) : world :=
  {| this := this w;
     trace := trace w ++ Fetch url init :: reported label c |}.

(** A client that has made no call yet. *)
Definition fresh (client : EchosenseAPI) : world :=
  {| this := client; trace := [] |}.

(** ** The HTTP surface as documented

    One row per operation: the method, the path template and the text
    of the argument that fills it. *)

Definition documented_method (op : operation) : string :=
  match op with
  | UploadAudio _ => "POST"
  | DeleteCall _ => "DELETE"
  | _ => "GET"
  end.

Definition path_template (op : operation) : string :=
  match op with
  | UploadAudio _ => "/api/upload/audio"
  | GetProcessingStatus _ => "/api/processing/status/"
  | GetTranscript _ => "/api/processing/transcript/"
  | GetQualityScore _ => "/api/processing/quality/"
  | GetComplianceFlags _ => "/api/processing/compliance/"
  | GetFullReport _ => "/api/processing/full-report/"
  | GetDashboardStats _ => "/api/analytics/dashboard?days="
  | GetRecentCalls _ => "/api/analytics/recent-calls?limit="
  | GetQualityTrends _ => "/api/analytics/quality-trends?days="
  | DeleteCall _ => "/api/calls/"
  | GetComplianceSummary _ => "/api/analytics/compliance-summary?days="
  end.

(** The documented default of a query parameter. *)
Definition documented_default (op : operation) : Z :=
  match op with
  | GetDashboardStats _ => 7
  | GetRecentCalls _ => 10
  | GetQualityTrends _ => 30
  | GetComplianceSummary _ => 7
  | _ => 0
  end.

(** The string form of the argument, the default standing in for an
    omitted one; the upload path takes none. *)
Definition argument_text (op : operation) : string :=
  match op with
  | UploadAudio _ => ""
  | GetProcessingStatus callId | GetTranscript callId
  | GetQualityScore callId | GetComplianceFlags callId
  | GetFullReport callId | DeleteCall callId => callId
  | GetDashboardStats n | GetRecentCalls n | GetQualityTrends n
  | GetComplianceSummary n =>
      num_to_string (default (num_of_Z (documented_default op)) n)
  end.

Definition documented_path (op : operation) : string :=
  path_template op +:+ argument_text op.

(** The init object that goes with the row: a multipart body with the
    single field [file] and no header for the upload, the JSON content
    type for all the others. *)
Definition upload_init (file : File) : RequestInit :=
  {| method := Some "POST";
     body := Some (BodyForm [("file", file)]);
     headers := None |}.

Definition documented_init (op : operation) : RequestInit :=
  match op with
  | UploadAudio file => upload_init file
  | DeleteCall _ =>
      {| method := Some "DELETE";
         body := None;
         headers := Some {[ "Content-Type" := "application/json" ]} |}
  | _ =>
      {| method := None;
         body := None;
         headers := Some {[ "Content-Type" := "application/json" ]} |}
  end.

(** The label under which a failure of the operation is logged. *)
Definition log_label (op : operation) : string :=
  match op with
  | UploadAudio _ => "Upload Error:"
  | _ => "API Error [" +:+ documented_path op +:+ "]:"
  end.

(** The message substituted for an error body that does not parse. *)
Definition substitute (op : operation) : string :=
  if is_upload op then "Upload failed" else "Unknown error".

(** ** The handling of an answer, as a function

    What a method completes with, given what [fetch] settled to: the
    reading of lines 26-31 (and 53-58) without the monad, against which
    the two methods are checked below.  [fallback] is the substituted
    message. *)
Definition settle (fallback : string) (a : thrown + Response)
    : completion json_value :=
  match a with
  | inl e => Throw e
  | inr r =>
      if ok r then
        match body_json r with
        | inl e => Throw e
        | inr v => Normal v
        end
      else
        let error :=
          match body_json r with
          | inl _ => JObject {[ "detail" := JString fallback ]}
          | inr body => body
          end in
        match get_detail error with
        | inl e => Throw e
        | inr detail =>
            match
              to_string
                (or_else detail (JString ("HTTP " +:+ pretty (status r))))
            with
            | inl e => Throw e
            | inr message => Throw (Error message)
            end
        end
  end.

(** The client's state after a series of operations, whatever they
    complete with. *)
Definition session (ops : list operation) (w : world) : world :=
  foldl (λ w op, (invoke op w).2) w ops.

(** One call of [fetch], to this URL and by this method. *)
Definition issues (m : M json_value) (w : world) (verb url : string)
    : Prop :=
  ∃ init, fetches (trace (m w).2) = fetches (trace w) ++ [(url, init)] ∧
          request_method init = verb.
End Client.

(** * Sample exchanges *)

Module Sample.
(** A backend that settles every request the same way. *)
Definition answering {num File : Type} (a : thrown + @Response num)
    : string → @RequestInit File → thrown + @Response num :=
  λ _ _, a.

(** The client of line 159, before its first call. *)
Definition api : @world string := fresh (constructor None).

Definition call_not_found : @Response Z :=
  {| status := 404;
     body_json := inr (JObject {[ "detail" := JString "Call not found" ]}) |}.

Definition deleted : @Response Z :=
  {| status := 200;
     body_json := inr (JObject {[ "deleted" := JBool true ]}) |}.

Definition empty_detail : @Response Z :=
  {| status := 500;
     body_json := inr (JObject {[ "detail" := JString "" ]}) |}.

Definition no_detail : @Response Z :=
  {| status := 503;
     body_json := inr (JObject {[ "error" := JString "busy" ]}) |}.

Definition syntax_error : thrown :=
  Rejection "SyntaxError" "Unexpected token '<'".

(** A 502 whose body is an HTML page. *)
Definition bad_gateway : @Response Z :=
  {| status := 502; body_json := inl syntax_error |}.

(** The 200 of the dashboard. *)
Definition stats : @Response Z :=
  {| status := 200;
     body_json := inr (JObject {[ "total_calls" := JNum 42%Z ]}) |}.

(** The reason [fetch] rejects with when the backend is unreachable. *)
Definition network_error : thrown :=
  Rejection "TypeError" "Failed to fetch".

(** A 500 whose body is the JSON value [null]. *)
Definition null_body : @Response Z :=
  {| status := 500; body_json := inr JNull |}.

(** A 400 whose [detail] is [false]. *)
Definition false_detail : @Response Z :=
  {| status := 400;
     body_json := inr (JObject {[ "detail" := JBool false ]}) |}.

(** The elements of a 422 whose [detail] is a list: an object, a string
    and [null]. *)
Definition validation_errors : list (@json_value Z) :=
  [JObject {[ "msg" := JString "field required" ]};
   JString "value is not a valid integer";
   JNull].

Definition unprocessable : @Response Z :=
  {| status := 422;
     body_json := inr (JObject {[ "detail" := JArray validation_errors ]}) |}.

(** A 500 whose body has no [detail]. *)
Definition internal_error : @Response Z :=
  {| status := 500;
     body_json := inr (JObject {[ "error" := JString "boom" ]}) |}.

(** A backend that answers 503 to the dashboard and 500 to the rest. *)
Definition by_path (url : string) (init : @RequestInit string)
    : thrown + @Response Z :=
  if String.eqb url "http://localhost:8000/api/analytics/dashboard?days=7"
  then inr no_detail else inr internal_error.

(** A client whose base URL ends with a slash. *)
Definition slashed : @world string :=
  fresh (constructor (Some "https://echosense.example/")).

Definition text_plain : @RequestInit string :=
  {| method := Some "POST";
     body := Some (BodyText "ping");
     headers := Some {[ "Content-Type" := "text/plain" ]} |}.
End Sample.

(** * Properties *)

Ltac run :=
  cbv [_fetch uploadAudio fetch json console_error new_Error try_catch
       mbind mret M_bind M_ret bind ret throw lift emit get_this after
       reported append new_FormData upload_init settle];
  cbn [this trace negb app].

Ltac finish :=
  cbn [this trace fst snd]; rewrite <- ?app_assoc; cbn [app]; try reflexivity.

Section Properties.
Context {num : Type} `{Number num} {File : Type}.
Context (backend : string → @RequestInit File → thrown + @Response num).

Implicit Types (w : @world File) (r : @Response num) (e : thrown)
  (v body d : @json_value num) (op : @operation num File)
  (options : @RequestInit File) (endpoint s : string).

(** ** The two methods that call [fetch], as equations *)

Lemma _fetch_eq endpoint options w :
  let url := baseUrl (this w) +:+ endpoint in
  let c := settle "Unknown error" (backend url (fetch_init options)) in
  _fetch backend endpoint options w =
  (c, after w url (fetch_init options)
        ("API Error [" +:+ endpoint +:+ "]:") c).
Proof.
  run. destruct (backend _ _) as [e|r]; [finish |].
  cbn [this trace]. rewrite negb_if.
  destruct (ok r); [destruct (body_json r); finish |].
  destruct (body_json r) as [e|body]; cbn [this trace];
    (destruct (get_detail _) as [e'|detail]; [finish |]);
    (destruct (to_string _); finish).
Qed.

Lemma uploadAudio_eq (file : File) w :
  let url := baseUrl (this w) +:+ "/api/upload/audio" in
  let c := settle "Upload failed" (backend url (upload_init file)) in
  uploadAudio backend file w =
  (c, after w url (upload_init file) "Upload Error:" c).
Proof.
  run. destruct (backend _ _) as [e|r]; [finish |].
  cbn [this trace]. rewrite negb_if.
  destruct (ok r); [destruct (body_json r); finish |].
  destruct (body_json r) as [e|body]; cbn [this trace];
    (destruct (get_detail _) as [e'|detail]; [finish |]);
    (destruct (to_string _); finish).
Qed.

(** The init object built from an [options] without headers. *)
Lemma fetch_init_plain (m : option string) :
  fetch_init (File:=File) {| method := m; body := None; headers := None |} =
  {| method := m; body := None;
     headers := Some {[ "Content-Type" := "application/json" ]} |}.
Proof.
  unfold fetch_init, merge_headers; cbn [method body headers default].
  by rewrite (left_id_L ∅ (∪)).
Qed.

(** A property of the request and of the computation of every method
    follows from the same property of the two methods that call
    [fetch]: every other method is one call of the generic helper. *)
Lemma invoke_cases (P : string → @RequestInit File → string → string →
                        M (@json_value num) → Prop) :
  (∀ endpoint options,
     P endpoint (fetch_init options) ("API Error [" +:+ endpoint +:+ "]:")
       "Unknown error" (_fetch backend endpoint options)) →
  (∀ file,
     P "/api/upload/audio" (upload_init file) "Upload Error:"
       "Upload failed" (uploadAudio backend file)) →
  ∀ op, P (documented_path op) (documented_init op) (log_label op)
          (substitute op) (invoke backend op).
Proof.
  intros Hfetch Hupload op.
  destruct op; [apply Hupload | ..];
    cbn [documented_init invoke]; rewrite <- fetch_init_plain;
    apply Hfetch.
Qed.

(** Every method, as one equation: the completion is [settle] of what
    the backend answers to the documented request, and the state
    afterwards is [after]. *)
Lemma invoke_eq op w :
  let url := baseUrl (this w) +:+ documented_path op in
  let c := settle (substitute op) (backend url (documented_init op)) in
  invoke backend op w =
  (c, after w url (documented_init op) (log_label op) c).
Proof.
  revert w. pattern (documented_path op), (documented_init op),
    (log_label op), (substitute op), (invoke backend op).
  apply invoke_cases; [apply _fetch_eq | apply uploadAudio_eq].
Qed.

(** ** Observations on the state after an exchange *)

Lemma fetches_after w url init label (c : completion (@json_value num)) :
  fetches (trace (after w url init label c)) =
  fetches (trace w) ++ [(url, init)].
Proof.
  unfold after, fetches; cbn [trace]. rewrite omap_app.
  by destruct c.
Qed.

Lemma logged_after w url init label (c : completion (@json_value num)) :
  logged (trace (after w url init label c)) =
  logged (trace w) ++
    match c with Normal _ => [] | Throw e => [(label, e)] end.
Proof.
  unfold after, logged; cbn [trace]. rewrite omap_app.
  by destruct c.
Qed.

(** ** Facts about [settle] *)

Lemma settle_success fallback r v :
  ok r = true → body_json r = inr v →
  settle fallback (inr r) = Normal v.
Proof. intros Hok Hbody. unfold settle. by rewrite Hok, Hbody. Qed.

Lemma settle_bad_body fallback r e :
  ok r = true → body_json r = inl e →
  settle fallback (inr r) = Throw e.
Proof. intros Hok Hbody. unfold settle. by rewrite Hok, Hbody. Qed.

Lemma settle_detail fallback r (o : gmap string (@json_value num)) d s :
  ok r = false → body_json r = inr (JObject o) → o !! "detail" = Some d →
  to_boolean d = true → to_string d = inr s →
  settle fallback (inr r) = Throw (Error s).
Proof.
  intros Hok Hbody Hd Htrue Hs. unfold settle.
  rewrite Hok, Hbody. cbn [get_detail]. rewrite Hd. cbn [or_else].
  by rewrite Htrue, Hs.
Qed.

Lemma settle_falsy_detail fallback r
    (o : gmap string (@json_value num)) d :
  ok r = false → body_json r = inr (JObject o) → o !! "detail" = Some d →
  to_boolean d = false →
  settle fallback (inr r) = Throw (Error ("HTTP " +:+ pretty (status r))).
Proof.
  intros Hok Hbody Hd Hfalse. unfold settle.
  rewrite Hok, Hbody. cbn [get_detail]. rewrite Hd. cbn [or_else].
  by rewrite Hfalse.
Qed.

Lemma get_detail_missing body :
  body ≠ JNull →
  (∀ o, body = JObject o → o !! "detail" = None) →
  get_detail body = inr None.
Proof.
  intros Hnull Hobj. destruct body; cbn [get_detail]; try done.
  by rewrite (Hobj _ eq_refl).
Qed.

Lemma settle_no_detail fallback r body :
  ok r = false → body_json r = inr body → body ≠ JNull →
  (∀ o, body = JObject o → o !! "detail" = None) →
  settle fallback (inr r) = Throw (Error ("HTTP " +:+ pretty (status r))).
Proof.
  intros Hok Hbody Hnull Hobj. unfold settle.
  rewrite Hok, Hbody. by rewrite get_detail_missing.
Qed.

Lemma settle_unparsed fallback r e :
  fallback ≠ "" → ok r = false → body_json r = inl e →
  settle (num:=num) fallback (inr r) = Throw (Error fallback).
Proof.
  intros Hne Hok Hbody. unfold settle.
  rewrite Hok, Hbody. cbn [get_detail].
  rewrite lookup_singleton_eq. cbn [or_else to_boolean].
  apply String.eqb_neq in Hne. by rewrite Hne.
Qed.

Lemma settle_failure fallback r :
  ok r = false → ∃ e, settle fallback (inr r) = Throw e.
Proof.
  intros Hok. unfold settle. rewrite Hok.
  destruct (get_detail _); [by eexists |].
  destruct (to_string _); by eexists.
Qed.

Lemma substitute_nonempty op : substitute op ≠ "".
Proof. unfold substitute. by destruct (is_upload op). Qed.

(** ** The claims *)

(** C3. A successful (2xx) response whose body parses: the generic helper
    and every operation of the client return the parsed body itself. *)
Theorem success_returns_body r v :
  ok r = true →
  body_json r = inr v →
  (∀ endpoint options w,
     backend (baseUrl (this w) +:+ endpoint) (fetch_init options) = inr r →
     (_fetch backend endpoint options w).1 = Normal v) ∧
  (∀ op w,
     backend (baseUrl (this w) +:+ documented_path op) (documented_init op)
       = inr r →
     (invoke backend op w).1 = Normal v).
Proof.
  intros Hok Hbody. split.
  - intros endpoint options w Hb. rewrite _fetch_eq. cbn [fst].
    rewrite Hb. by apply settle_success.
  - intros op w Hb. rewrite invoke_eq. cbn [fst].
    rewrite Hb. by apply settle_success.
Qed.

(** C1, as amended. A non-success response whose JSON body has a truthy
    [detail] (any value but [null], [false], zero and the empty string)
    that converts to a string: the generic helper, and with it every
    operation, raises an error whose message is the string form of that
    value, which for a string is the string itself. *)
Theorem detail_becomes_message r (o : gmap string (@json_value num)) d s :
  ok r = false →
  body_json r = inr (JObject o) →
  o !! "detail" = Some d →
  to_boolean d = true →
  to_string d = inr s →
  (∀ endpoint options w,
     backend (baseUrl (this w) +:+ endpoint) (fetch_init options) = inr r →
     (_fetch backend endpoint options w).1 = Throw (Error s)) ∧
  (∀ op w,
     backend (baseUrl (this w) +:+ documented_path op) (documented_init op)
       = inr r →
     (invoke backend op w).1 = Throw (Error s)).
Proof.
  intros Hok Hbody Hd Htrue Hs. split.
  - intros endpoint options w Hb. rewrite _fetch_eq. cbn [fst].
    rewrite Hb. by eapply settle_detail.
  - intros op w Hb. rewrite invoke_eq. cbn [fst].
    rewrite Hb. by eapply settle_detail.
Qed.

(** C2, as amended. For a non-success response the generic helper raises
    an error with the message [Unknown error] when the body is not valid
    JSON, and with the message [HTTP <status>] when the body is valid
    JSON other than [null] without a [detail] field. *)
Theorem status_or_unknown_error endpoint options w r :
  backend (baseUrl (this w) +:+ endpoint) (fetch_init options) = inr r →
  ok r = false →
  (∀ e, body_json r = inl e →
     (_fetch backend endpoint options w).1 = Throw (Error "Unknown error")) ∧
  (∀ body,
     body_json r = inr body →
     body ≠ JNull →
     (∀ o, body = JObject o → o !! "detail" = None) →
     (_fetch backend endpoint options w).1 =
     Throw (Error ("HTTP " +:+ pretty (status r)))).
Proof.
  intros Hb Hok. rewrite _fetch_eq. cbn [fst]. rewrite Hb. split.
  - intros e Hbody. by eapply settle_unparsed.
  - intros body Hbody Hnull Hobj. by eapply settle_no_detail.
Qed.

(** C4, as amended. Given the same answer, [uploadAudio] returns the
    value or raises the error that the generic helper returns or raises,
    except for a non-success response whose body does not parse: there
    the generic helper substitutes [Unknown error] and [uploadAudio]
    substitutes [Upload failed]. *)
Theorem upload_handles_like_fetch (a : thrown + @Response num)
    (file : File) endpoint options w w' :
  backend (baseUrl (this w) +:+ "/api/upload/audio") (upload_init file)
    = a →
  backend (baseUrl (this w') +:+ endpoint) (fetch_init options) = a →
  ((∀ r e, a = inr r → ok r = false → body_json r ≠ inl e) →
   (uploadAudio backend file w).1 = (_fetch backend endpoint options w').1) ∧
  (∀ r e, a = inr r → ok r = false → body_json r = inl e →
     (uploadAudio backend file w).1 = Throw (Error "Upload failed") ∧
     (_fetch backend endpoint options w').1 = Throw (Error "Unknown error")).
Proof.
  intros Hupload Hfetch. rewrite uploadAudio_eq, _fetch_eq. cbn [fst].
  rewrite Hupload, Hfetch. split.
  - intros Hparsed. destruct a as [e|r]; [done |].
    unfold settle. destruct (ok r) eqn:Hok; [done |].
    destruct (body_json r) as [e|body] eqn:Hbody; [| done].
    by destruct (Hparsed r e).
  - intros r e -> Hok Hbody. split; by eapply settle_unparsed.
Qed.

(** C5. For every file, [uploadAudio] calls [fetch] exactly once: a POST
    to [/api/upload/audio] under the base URL, whose body is a form with
    the single field [file] holding that file, and whose init object has
    no header at all, so no [Content-Type: application/json]. *)
Theorem upload_issues_one_multipart_post (file : File) w :
  ∃ init,
    fetches (trace (uploadAudio backend file w).2) =
      fetches (trace w) ++
        [(baseUrl (this w) +:+ "/api/upload/audio", init)] ∧
    request_method init = "POST" ∧
    body init = Some (BodyForm [("file", file)]) ∧
    headers init = None ∧
    request_header init "Content-Type" = None.
Proof.
  exists (upload_init file). rewrite uploadAudio_eq. cbn [snd].
  by rewrite fetches_after.
Qed.

(** C6, as amended. The one request of the generic helper carries the
    caller's headers and, unless the caller supplies a [Content-Type] of
    its own, which then replaces the default, the header
    [Content-Type: application/json].  The operations other than the
    upload supply no headers, so their requests carry
    [Content-Type: application/json]. *)
Theorem headers_merged :
  (∀ endpoint options w,
     ∃ init,
       fetches (trace (_fetch backend endpoint options w).2) =
         fetches (trace w) ++ [(baseUrl (this w) +:+ endpoint, init)] ∧
       ∀ name,
         request_header init name =
         match default ∅ (headers options) !! name with
         | Some value => Some value
         | None =>
             if decide (name = "Content-Type")
             then Some "application/json" else None
         end) ∧
  (∀ op w,
     ∃ init,
       fetches (trace (invoke backend op w).2) =
         fetches (trace w) ++
           [(baseUrl (this w) +:+ documented_path op, init)] ∧
       request_header init "Content-Type" =
         if is_upload op then None else Some "application/json").
Proof.
  split.
  - intros endpoint options w. exists (fetch_init options).
    rewrite _fetch_eq. cbn [snd]. rewrite fetches_after.
    split; [done |]. intros name.
    unfold request_header, fetch_init, merge_headers.
    cbn [headers from_option id]. rewrite lookup_union.
    destruct (default ∅ (headers options) !! name) as [value|];
      rewrite lookup_singleton; repeat case_decide; by simplify_eq.
  - intros op w. exists (documented_init op).
    rewrite invoke_eq. cbn [snd]. rewrite fetches_after.
    split; [done |]. by destruct op.
Qed.

(** C7. Called without their parameter, [getDashboardStats] issues
    [GET /api/analytics/dashboard?days=7], [getRecentCalls] uses
    [limit=10], [getQualityTrends] uses [days=30] and
    [getComplianceSummary] uses [days=7]; and the decoded body of a
    successful response is returned as it is. *)
Theorem omitted_parameter_defaults w :
  let base := baseUrl (this w) in
  let plain : @RequestInit File :=
    {| method := None; body := None;
       headers := Some {[ "Content-Type" := "application/json" ]} |} in
  let verbatim (m : M (@json_value num)) (url : string) :=
    ∀ r v, backend url plain = inr r → ok r = true → body_json r = inr v →
           (m w).1 = Normal v in
  (issues (getDashboardStats backend None) w "GET"
     (base +:+ "/api/analytics/dashboard?days=7") ∧
   verbatim (getDashboardStats backend None)
     (base +:+ "/api/analytics/dashboard?days=7")) ∧
  (issues (getRecentCalls backend None) w "GET"
     (base +:+ "/api/analytics/recent-calls?limit=10") ∧
   verbatim (getRecentCalls backend None)
     (base +:+ "/api/analytics/recent-calls?limit=10")) ∧
  (issues (getQualityTrends backend None) w "GET"
     (base +:+ "/api/analytics/quality-trends?days=30") ∧
   verbatim (getQualityTrends backend None)
     (base +:+ "/api/analytics/quality-trends?days=30")) ∧
  (issues (getComplianceSummary backend None) w "GET"
     (base +:+ "/api/analytics/compliance-summary?days=7") ∧
   verbatim (getComplianceSummary backend None)
     (base +:+ "/api/analytics/compliance-summary?days=7")).
Proof.
  intros base plain verbatim.
  assert (Hop : ∀ op path,
    documented_path op = path → documented_init op = plain →
    issues (invoke backend op) w "GET" (base +:+ path) ∧
    verbatim (invoke backend op) (base +:+ path)).
  { intros op path <- Hinit. split.
    - exists (documented_init op). rewrite invoke_eq. cbn [snd].
      rewrite fetches_after. split; [done |]. by rewrite Hinit.
    - intros r v Hb Hok Hbody. rewrite invoke_eq. cbn [fst].
      rewrite Hinit. fold base. rewrite Hb. by apply settle_success. }
  assert (Hlit : ∀ z : Z, (Z.abs z ≤ 30)%Z →
    num_to_string (num_of_Z z) = pretty z).
  { intros z Hz. apply num_to_string_of_Z. lia. }
  repeat split.
  all: first
    [ apply (Hop (GetDashboardStats None))
    | apply (Hop (GetRecentCalls None))
    | apply (Hop (GetQualityTrends None))
    | apply (Hop (GetComplianceSummary None)) ];
    try reflexivity;
    unfold documented_path; cbn [path_template argument_text default
      documented_default]; by rewrite Hlit.
Qed.

(** C8, as amended. Every operation calls [fetch] exactly once, whatever
    happens.  A failure that reaches the handler is logged once and the
    same error is raised to the caller: the rejection of [fetch], the
    parse failure of a successful response's body, and the error raised
    for a non-success response, which never yields a value.  (The parse
    failure of a non-success response's body does not reach the handler:
    the substituted detail takes its place and the HTTP error is
    raised.) *)
Theorem failures_logged_and_rethrown op w :
  let url := baseUrl (this w) +:+ documented_path op in
  let answer := backend url (documented_init op) in
  let c := (invoke backend op w).1 in
  let w' := (invoke backend op w).2 in
  fetches (trace w') = fetches (trace w) ++ [(url, documented_init op)] ∧
  logged (trace w') =
    logged (trace w) ++
      match c with Normal _ => [] | Throw e => [(log_label op, e)] end ∧
  (∀ e, answer = inl e → c = Throw e) ∧
  (∀ r e, answer = inr r → ok r = true → body_json r = inl e →
     c = Throw e) ∧
  (∀ r, answer = inr r → ok r = false → ∃ e, c = Throw e).
Proof.
  intros url answer c w'. subst c w'. rewrite invoke_eq. cbn [fst snd].
  fold url answer. rewrite fetches_after, logged_after.
  repeat split.
  - by intros e ->.
  - intros r e -> Hok Hbody. by apply settle_bad_body.
  - intros r -> Hok. by apply settle_failure.
Qed.

(** No operation touches the client object, and each extends the list of
    requests by one whose URL starts with the client's base URL. *)
Lemma session_invariant (ops : list (@operation num File)) w base :
  baseUrl (this w) = base →
  Forall (λ request, ∃ path, request.1 = base +:+ path)
    (fetches (trace w)) →
  this (session backend ops w) = this w ∧
  Forall (λ request, ∃ path, request.1 = base +:+ path)
    (fetches (trace (session backend ops w))).
Proof.
  revert w. induction ops as [|op ops IH]; intros w Hbase Hw; [done |].
  change (session backend (op :: ops) w)
    with (session backend ops (invoke backend op w).2).
  set (w1 := (invoke backend op w).2).
  assert (Hthis : this w1 = this w).
  { subst w1. by rewrite invoke_eq. }
  destruct (IH w1) as [IHthis IHall].
  - by rewrite Hthis.
  - subst w1. rewrite invoke_eq. cbn [snd]. rewrite fetches_after.
    apply Forall_app. split; [done |].
    apply Forall_singleton. exists (documented_path op).
    cbn [fst]. by rewrite Hbase.
  - split; [by rewrite IHthis | done].
Qed.

(** C9. The client object is its base URL and nothing else; the
    constructor stores its argument, or [http://localhost:8000] when it
    has none; no operation changes it; and after any series of
    operations the client is the constructed one and the URL of every
    request made starts with the base URL given at construction. *)
Theorem base_url_fixed :
  (∀ client : EchosenseAPI, client = {| baseUrl := baseUrl client |}) ∧
  constructor None = {| baseUrl := "http://localhost:8000" |} ∧
  (∀ url, constructor (Some url) = {| baseUrl := url |}) ∧
  (∀ op w, this (invoke backend op w).2 = this w) ∧
  (∀ endpoint options w, this (_fetch backend endpoint options w).2 = this w) ∧
  (∀ ops base,
     let w' := session backend ops (fresh (constructor base)) in
     this w' = constructor base ∧
     Forall (λ request,
               ∃ path, request.1 = baseUrl (constructor base) +:+ path)
       (fetches (trace w'))).
Proof.
  split; [by intros [] |]. do 2 (split; [done |]).
  split; [intros op w; by rewrite invoke_eq |].
  split; [intros endpoint options w; by rewrite _fetch_eq |].
  intros ops base w'. subst w'.
  by apply session_invariant.
Qed.

(** C10. For every operation and every argument the URL requested is the
    base URL, the path template and the string form of the argument, one
    after the other and nothing else; a call ID made of [/], [?] and [#]
    goes into the URL as it is. *)
Theorem url_is_plain_concatenation :
  (∀ op w,
     issues (invoke backend op) w (documented_method op)
       (baseUrl (this w) +:+ path_template op +:+ argument_text op)) ∧
  (∀ callId w,
     issues (getProcessingStatus backend callId) w "GET"
       (baseUrl (this w) +:+ "/api/processing/status/" +:+ callId)) ∧
  (∀ callId w,
     issues (deleteCall backend callId) w "DELETE"
       (baseUrl (this w) +:+ "/api/calls/" +:+ callId)) ∧
  (∀ (n : num) w,
     issues (getRecentCalls backend (Some n)) w "GET"
       (baseUrl (this w) +:+ "/api/analytics/recent-calls?limit=" +:+
        num_to_string n)) ∧
  (∀ w,
     issues (deleteCall backend "a/b?c#d") w "DELETE"
       (baseUrl (this w) +:+ "/api/calls/a/b?c#d")).
Proof.
  assert (Hop : ∀ op w,
    issues (invoke backend op) w (documented_method op)
      (baseUrl (this w) +:+ path_template op +:+ argument_text op)).
  { intros op w. exists (documented_init op). rewrite invoke_eq.
    cbn [snd]. rewrite fetches_after. split; [done |]. by destruct op. }
  split; [exact Hop |].
  split; [intros callId w; exact (Hop (GetProcessingStatus callId) w) |].
  split; [intros callId w; exact (Hop (DeleteCall callId) w) |].
  split; [intros n w; exact (Hop (GetRecentCalls (Some n)) w) |].
  intros w; exact (Hop (DeleteCall "a/b?c#d") w).
Qed.
End Properties.

(** * The claims on the sample exchanges *)

(** C1, witness: the 404 of the backend, [{"detail": "Call not found"}],
    makes [deleteCall] fail with the message [Call not found]. *)
Lemma detail_becomes_message_witness :
  ok Sample.call_not_found = false ∧
  to_boolean (JString (num:=Z) "Call not found") = true ∧
  (invoke (Sample.answering (inr Sample.call_not_found))
     (DeleteCall "abc123") Sample.api).1 = Throw (Error "Call not found").
Proof.
  split; [reflexivity |]. split; [reflexivity |].
  apply (proj2 (detail_becomes_message
                  (Sample.answering (inr Sample.call_not_found))
                  Sample.call_not_found
                  {[ "detail" := JString "Call not found" ]}
                  (JString "Call not found") "Call not found"
                  eq_refl eq_refl eq_refl eq_refl eq_refl)).
  reflexivity.
Defined.

(** C1, counterexample: a 500 whose body is [{"detail": ""}] has a
    [detail] field, and the message is [HTTP 500], not its value. *)
Lemma empty_detail_gives_status :
  ok Sample.empty_detail = false ∧
  body_json Sample.empty_detail = inr (JObject {[ "detail" := JString "" ]}) ∧
  (_fetch (File:=string) (Sample.answering (inr Sample.empty_detail))
     "/api/calls/abc123" no_options Sample.api).1 = Throw (Error "HTTP 500") ∧
  (invoke (Sample.answering (inr Sample.empty_detail))
     (DeleteCall "abc123") Sample.api).1 = Throw (Error "HTTP 500") ∧
  "HTTP 500" ≠ "".
Proof. repeat split; (reflexivity || discriminate). Qed.

(** C2, witness: a 503 whose body is [{"error": "busy"}]. *)
Lemma status_or_unknown_error_witness :
  ok Sample.no_detail = false ∧
  (_fetch (File:=string) (Sample.answering (inr Sample.no_detail))
     "/api/calls/abc123" no_options Sample.api).1 = Throw (Error "HTTP 503").
Proof.
  split; [reflexivity |].
  refine (proj2 (status_or_unknown_error
                   (Sample.answering (inr Sample.no_detail))
                   "/api/calls/abc123" no_options Sample.api
                   Sample.no_detail eq_refl eq_refl)
            (JObject {[ "error" := JString "busy" ]}) eq_refl _ _).
  - discriminate.
  - intros o [= <-]. reflexivity.
Defined.

(** C2, counterexample: a 502 whose body is not JSON gives the message
    [Unknown error], not [HTTP 502]. *)
Lemma unparsed_body_gives_unknown_error :
  ok Sample.bad_gateway = false ∧
  body_json Sample.bad_gateway = inl Sample.syntax_error ∧
  (_fetch (File:=string) (Sample.answering (inr Sample.bad_gateway))
     "/api/calls/abc123" no_options Sample.api).1 =
    Throw (Error "Unknown error") ∧
  "Unknown error" ≠ "HTTP 502".
Proof. repeat split; (reflexivity || discriminate). Qed.

(** C3, witness: the 200 of [deleteCall]. *)
Lemma success_returns_body_witness :
  ok Sample.deleted = true ∧
  (invoke (Sample.answering (inr Sample.deleted))
     (DeleteCall "abc123") Sample.api).1 =
    Normal (JObject {[ "deleted" := JBool true ]}).
Proof.
  split; [reflexivity |].
  apply (proj2 (success_returns_body
                  (Sample.answering (inr Sample.deleted)) Sample.deleted
                  (JObject {[ "deleted" := JBool true ]})
                  eq_refl eq_refl)).
  reflexivity.
Defined.

(** C4, witness: on the 404 both raise [Call not found]. *)
Lemma upload_handles_like_fetch_witness :
  (uploadAudio (Sample.answering (inr Sample.call_not_found))
     "call.wav" Sample.api).1 =
  (_fetch (Sample.answering (inr Sample.call_not_found))
     "/api/calls/abc123" no_options Sample.api).1.
Proof.
  refine (proj1 (upload_handles_like_fetch
                   (Sample.answering (inr Sample.call_not_found))
                   (inr Sample.call_not_found) "call.wav"
                   "/api/calls/abc123" no_options Sample.api Sample.api
                   eq_refl eq_refl) _).
  intros r e [= <-] _. discriminate.
Defined.

(** C4, counterexample: on the 502 whose body is not JSON the generic
    helper raises [Unknown error] and [uploadAudio] raises
    [Upload failed]. *)
Lemma upload_substitutes_another_message :
  ok Sample.bad_gateway = false ∧
  (_fetch (File:=string) (Sample.answering (inr Sample.bad_gateway))
     "/api/upload/audio" no_options Sample.api).1 =
    Throw (Error "Unknown error") ∧
  (uploadAudio (Sample.answering (inr Sample.bad_gateway))
     "call.wav" Sample.api).1 = Throw (Error "Upload failed") ∧
  (uploadAudio (Sample.answering (inr Sample.bad_gateway))
     "call.wav" Sample.api).1 ≠
  (_fetch (File:=string) (Sample.answering (inr Sample.bad_gateway))
     "/api/upload/audio" no_options Sample.api).1.
Proof. repeat split; (reflexivity || discriminate). Qed.

(** C6, counterexample: the caller's [Content-Type: text/plain] replaces
    the default. *)
Lemma caller_content_type_wins :
  headers Sample.text_plain = Some {[ "Content-Type" := "text/plain" ]} ∧
  ∃ init,
    fetches (trace (_fetch (Sample.answering (inr Sample.deleted))
                      "/api/ping" Sample.text_plain Sample.api).2) =
      [("http://localhost:8000/api/ping", init)] ∧
    request_header init "Content-Type" = Some "text/plain" ∧
    request_header init "Content-Type" ≠ Some "application/json".
Proof.
  split; [reflexivity |]. eexists. split; [reflexivity |].
  split; [reflexivity | discriminate].
Qed.

(** C7, witness: [getDashboardStats()] on the client of line 159 issues
    [GET http://localhost:8000/api/analytics/dashboard?days=7] and returns
    the decoded body of the 200. *)
Lemma omitted_parameter_defaults_witness :
  issues (getDashboardStats (File:=string)
            (Sample.answering (inr Sample.stats)) None)
    Sample.api "GET" "http://localhost:8000/api/analytics/dashboard?days=7" ∧
  (getDashboardStats (File:=string)
     (Sample.answering (inr Sample.stats)) None Sample.api).1 =
    Normal (JObject {[ "total_calls" := JNum 42%Z ]}).
Proof.
  destruct (omitted_parameter_defaults (File:=string)
              (Sample.answering (inr Sample.stats)) Sample.api)
    as [[Hissues Hverbatim] _].
  split; [exact Hissues |].
  apply (Hverbatim Sample.stats); reflexivity.
Defined.

(** C8, witness: when [fetch] rejects, [getTranscript] makes that one call,
    logs the rejection once and raises it. *)
Lemma failures_logged_and_rethrown_witness :
  let run := invoke (File:=string) (Sample.answering (inl Sample.network_error))
               (GetTranscript (num:=Z) "abc123") Sample.api in
  run.1 = Throw Sample.network_error ∧
  logged (trace run.2) =
    [("API Error [/api/processing/transcript/abc123]:",
      Sample.network_error)] ∧
  length (fetches (trace run.2)) = 1.
Proof.
  intros run.
  destruct (failures_logged_and_rethrown
              (Sample.answering (inl Sample.network_error))
              (GetTranscript "abc123") Sample.api)
    as (Hfetches & Hlogged & Hrejected & _).
  pose proof (Hrejected Sample.network_error eq_refl) as Hthrow.
  split; [exact Hthrow |]. split.
  - subst run. rewrite Hlogged, Hthrow. reflexivity.
  - subst run. rewrite Hfetches. reflexivity.
Defined.

(** C8, counterexample: the body of the 502 fails to parse with
    [syntax_error]; what is logged and raised is another error, made from
    the substituted detail. *)
Lemma unparsed_error_body_is_replaced :
  ok Sample.bad_gateway = false ∧
  body_json Sample.bad_gateway = inl Sample.syntax_error ∧
  (invoke (File:=string) (Sample.answering (inr Sample.bad_gateway))
     (GetTranscript "abc123") Sample.api).1 = Throw (Error "Unknown error") ∧
  logged (trace (invoke (File:=string)
                   (Sample.answering (inr Sample.bad_gateway))
                   (GetTranscript "abc123") Sample.api).2) =
    [("API Error [/api/processing/transcript/abc123]:",
      Error "Unknown error")] ∧
  Error "Unknown error" ≠ Sample.syntax_error.
Proof. repeat split; (reflexivity || discriminate). Qed.


(** * Further properties of the client *)

Section Coverage.
Context {num : Type} `{Number num} {File : Type}.
Context (backend : string → @RequestInit File → thrown + @Response num).

Implicit Types (w : @world File) (r : @Response num) (e : thrown)
  (v body d : @json_value num) (op : @operation num File)
  (ops : list (@operation num File)) (s : string).

(** ** Strings *)

Lemma string_app_nil_r s : s +:+ "" = s.
Proof.
  induction s as [|a s IH]; [done |].
  change (String a (s +:+ "") = String a s). by rewrite IH.
Qed.

Lemma string_app_assoc s1 s2 s3 : (s1 +:+ s2) +:+ s3 = s1 +:+ s2 +:+ s3.
Proof.
  induction s1 as [|a s1 IH]; [done |].
  change (String a ((s1 +:+ s2) +:+ s3) = String a (s1 +:+ s2 +:+ s3)).
  by rewrite IH.
Qed.

(** ** ToString of an array *)

(** Induction on a JSON value, with the property at hand for every
    element of an array. *)
Lemma json_value_elements_ind (P : @json_value num → Prop) :
  P JNull → (∀ b, P (JBool b)) → (∀ n, P (JNum n)) → (∀ s, P (JString s)) →
  (∀ l, Forall P l → P (JArray l)) → (∀ o, P (JObject o)) →
  ∀ v, P v.
Proof.
  intros Hnull Hbool Hnum Hstring Harray Hobject.
  fix IH 1. intros [| b | n | s | l | o]; [done.. | | done].
  apply Harray.
  refine ((fix elements (l : list json_value) : Forall P l :=
             match l with
             | [] => Forall_nil_2 P
             | x :: l' => Forall_cons_2 P x l' (IH x) (elements l')
             end) l).
Qed.

Lemma to_string_array (l : list (@json_value num)) :
  to_string (JArray l) = join_elements l "".
Proof. reflexivity. Qed.

Lemma join_elements_cons v (l : list (@json_value num)) sep :
  join_elements (v :: l) sep =
  match match v with JNull => inr "" | _ => to_string v end with
  | inl e => inl e
  | inr s =>
      match join_elements l "," with
      | inl e => inl e
      | inr rest => inr (sep +:+ s +:+ rest)
      end
  end.
Proof. reflexivity. Qed.

(** The only error of ToString is the TypeError of ToPrimitive. *)
Lemma to_string_error v e : to_string v = inl e → e = TypeError_primitive.
Proof.
  revert e. induction v as [| b | n | s | l IH | o]
    using json_value_elements_ind; intros e; try discriminate.
  - rewrite to_string_array. generalize "". revert e.
    induction IH as [|x l Hx _ IHl]; intros e sep; [discriminate |].
    rewrite join_elements_cons.
    destruct (match x with JNull => inr "" | _ => to_string x end)
      as [e'|s] eqn:Hs.
    + intros [= <-]. destruct x; try discriminate Hs; by apply Hx.
    + destruct (join_elements l ",") as [e'|rest] eqn:Hrest; [| done].
      intros [= <-]. by eapply IHl.
  - cbn [to_string]. case_decide; naive_solver.
Qed.

Lemma join_elements_texts (l : list (@json_value num)) texts sep :
  Forall2 element_reads l texts →
  join_elements l sep =
  inr (match texts with [] => "" | _ => sep +:+ String.concat "," texts end).
Proof.
  intros Hl. revert sep.
  induction Hl as [|x text l texts Hx Hl IH]; intros sep; [done |].
  rewrite join_elements_cons, (IH ",").
  assert (match x with JNull => inr "" | _ => to_string x end
          = inr (B:=string) (A:=thrown) text) as ->.
  { destruct x; cbn [element_reads] in Hx; by subst. }
  destruct texts as [|text' texts]; [| done].
  cbn [String.concat]. by rewrite (string_app_nil_r text).
Qed.

(** ** More facts about [settle] *)

Lemma settle_null fallback r :
  ok r = false → body_json r = inr JNull →
  settle fallback (inr r) = Throw (TypeError_property "detail").
Proof. intros Hok Hbody. unfold settle. by rewrite Hok, Hbody. Qed.

Lemma settle_failure_kind fallback r :
  ok r = false →
  (∃ message, settle fallback (inr r) = Throw (Error message)) ∨
  (body_json r = inr JNull ∧
   settle fallback (inr r) = Throw (TypeError_property "detail")) ∨
  settle fallback (inr r) = Throw TypeError_primitive.
Proof.
  intros Hok. unfold settle. rewrite Hok.
  destruct (body_json r) as [e|body] eqn:Hbody.
  - cbn [get_detail].
    destruct (to_string _) as [e'|message] eqn:Hs; [| by eauto].
    apply to_string_error in Hs as ->. by eauto.
  - destruct body; cbn [get_detail]; try by eauto.
    all: destruct (to_string _) as [e'|message] eqn:Hs; [| by eauto].
    all: apply to_string_error in Hs as ->; by eauto.
Qed.

(** ** Series of operations *)

Lemma session_cons op ops w :
  session backend (op :: ops) w =
  session backend ops (invoke backend op w).2.
Proof. reflexivity. Qed.

Lemma invoke_this op w : this (invoke backend op w).2 = this w.
Proof. by rewrite invoke_eq. Qed.



Lemma session_fetches ops w :
  fetches (trace (session backend ops w)) =
  fetches (trace w) ++
    map (λ op, (baseUrl (this w) +:+ documented_path op, documented_init op))
      ops.
Proof.
  revert w. induction ops as [|op ops IH]; intros w.
  - cbn [session foldl map]. by rewrite app_nil_r.
  - rewrite session_cons, IH, invoke_this.
    rewrite invoke_eq. cbn [snd map]. rewrite fetches_after.
    by rewrite <- app_assoc.
Qed.


Lemma documented_path_api op : ∃ rest, documented_path op = "/api/" +:+ rest.
Proof. destruct op; eexists; reflexivity. Qed.

Lemma invoke_issues op w :
  issues (invoke backend op) w (documented_method op)
    (baseUrl (this w) +:+ documented_path op).
Proof.
  exists (documented_init op). rewrite invoke_eq. cbn [snd].
  rewrite fetches_after. split; [done |]. by destruct op.
Qed.

(** ** Error bodies *)

(** X1. A non-success response whose JSON body has a [detail] that is
    falsy (the empty string, [null], [false] or zero): every operation
    raises an error with the message [HTTP <status>]. *)
Theorem falsy_detail_gives_status r (o : gmap string (@json_value num)) d :
  ok r = false →
  body_json r = inr (JObject o) →
  o !! "detail" = Some d →
  to_boolean d = false →
  ∀ op w,
    backend (baseUrl (this w) +:+ documented_path op) (documented_init op)
      = inr r →
    (invoke backend op w).1 = Throw (Error ("HTTP " +:+ pretty (status r))).
Proof.
  intros Hok Hbody Hd Hfalse op w Hb. rewrite invoke_eq. cbn [fst].
  rewrite Hb. by eapply settle_falsy_detail.
Qed.

(** X2. A non-success response whose body is the JSON value [null]: the
    read of [detail] throws, so every operation raises the engine's
    TypeError instead of an [Error] with a message, and logs it once under
    its label. *)
Theorem null_body_raises_type_error r :
  ok r = false →
  body_json r = inr JNull →
  ∀ op w,
    backend (baseUrl (this w) +:+ documented_path op) (documented_init op)
      = inr r →
    (invoke backend op w).1 = Throw (TypeError_property "detail") ∧
    logged (trace (invoke backend op w).2) =
      logged (trace w) ++ [(log_label op, TypeError_property "detail")].
Proof.
  intros Hok Hbody op w Hb. rewrite invoke_eq. cbn [fst snd].
  rewrite logged_after, Hb, (settle_null _ r Hok Hbody). done.
Qed.

(** X3. Whatever the body of a non-success response, an operation never
    returns a value and never raises the rejection of [response.json()]:
    it raises an [Error] carrying a message, or the TypeError of reading
    [detail] from a [null] body, or the TypeError of a [detail] that has no
    string form. *)
Theorem non_success_error_kinds r :
  ok r = false →
  ∀ op w,
    backend (baseUrl (this w) +:+ documented_path op) (documented_init op)
      = inr r →
    (∃ message, (invoke backend op w).1 = Throw (Error message)) ∨
    (body_json r = inr JNull ∧
     (invoke backend op w).1 = Throw (TypeError_property "detail")) ∨
    (invoke backend op w).1 = Throw TypeError_primitive.
Proof.
  intros Hok op w Hb. rewrite invoke_eq. cbn [fst]. rewrite Hb.
  by apply settle_failure_kind.
Qed.

(** X4. A non-success response whose [detail] is an array (the shape of a
    validation error): the message is the string forms of the elements
    joined by commas, a [null] element reading as the empty string; an
    empty array gives the empty message. *)
Theorem array_detail_is_joined r (o : gmap string (@json_value num))
    (l : list (@json_value num)) (texts : list string) :
  ok r = false →
  body_json r = inr (JObject o) →
  o !! "detail" = Some (JArray l) →
  Forall2 element_reads l texts →
  ∀ op w,
    backend (baseUrl (this w) +:+ documented_path op) (documented_init op)
      = inr r →
    (invoke backend op w).1 = Throw (Error (String.concat "," texts)).
Proof.
  intros Hok Hbody Hd Hl op w Hb. rewrite invoke_eq. cbn [fst]. rewrite Hb.
  eapply settle_detail; [done.. |].
  rewrite to_string_array, (join_elements_texts l texts "" Hl).
  by destruct texts.
Qed.

(** X9. Two non-success responses without a [detail] and with different
    status codes make the operations raise different errors: the message
    [HTTP <status>] tells the status codes apart. *)
Theorem distinct_status_distinct_error r1 r2 body1 body2 :
  ok r1 = false → body_json r1 = inr body1 → lacks_detail body1 →
  ok r2 = false → body_json r2 = inr body2 → lacks_detail body2 →
  status r1 ≠ status r2 →
  ∀ op1 w1 op2 w2,
    backend (baseUrl (this w1) +:+ documented_path op1) (documented_init op1)
      = inr r1 →
    backend (baseUrl (this w2) +:+ documented_path op2) (documented_init op2)
      = inr r2 →
    (invoke backend op1 w1).1 ≠ (invoke backend op2 w2).1.
Proof.
  intros Hok1 Hbody1 [Hnull1 Hobj1] Hok2 Hbody2 [Hnull2 Hobj2] Hstatus
    op1 w1 op2 w2 Hb1 Hb2.
  rewrite !invoke_eq. cbn [fst]. rewrite Hb1, Hb2.
  rewrite (settle_no_detail _ r1 body1), (settle_no_detail _ r2 body2)
    by done.
  intros Hsame. apply Hstatus.
  apply (inj pretty), (inj (String.app "HTTP ")). congruence.
Qed.

(** ** Series of operations *)

(** X5. A series of operations makes exactly one request per operation, in
    the order of the calls, each the documented request of its operation
    under the client's base URL. *)
Theorem session_requests_in_order ops w :
  fetches (trace (session backend ops w)) =
    fetches (trace w) ++
      map (λ op, (baseUrl (this w) +:+ documented_path op,
                  documented_init op)) ops ∧
  length (fetches (trace (session backend ops w))) =
    length (fetches (trace w)) + length ops.
Proof.
  rewrite session_fetches. split; [done |].
  by rewrite length_app, length_map.
Qed.



(** ** URLs *)


(** X10. The path of every request begins with [/api/]; and whatever the
    series of operations made on the client built without an argument (the
    one of line 159), every URL requested begins with
    [http://localhost:8000/api/]. *)
Theorem paths_under_api :
  (∀ op w,
     ∃ rest,
       issues (invoke backend op) w (documented_method op)
         (baseUrl (this w) +:+ "/api/" +:+ rest)) ∧
  (∀ ops,
     Forall (λ request,
               ∃ rest, request.1 = "http://localhost:8000/api/" +:+ rest)
       (fetches (trace (session backend ops (fresh (constructor None)))))).
Proof.
  split.
  - intros op w. destruct (documented_path_api op) as [rest Hrest].
    exists rest. rewrite <- Hrest. apply invoke_issues.
  - intros ops. rewrite session_fetches. cbn [fresh trace fetches omap].
    apply Forall_app. split; [constructor |].
    apply Forall_map, Forall_forall. intros op _.
    destruct (documented_path_api op) as [rest Hrest].
    exists rest. cbn [fst]. by rewrite Hrest.
Qed.

(** X11. The base URL is not normalised: on a client whose base URL ends
    with a slash every operation requests a URL with two slashes before
    [api]. *)
Theorem trailing_slash_not_normalised base op w :
  baseUrl (this w) = base +:+ "/" →
  ∃ rest,
    issues (invoke backend op) w (documented_method op)
      (base +:+ "//api/" +:+ rest).
Proof.
  intros Hbase. destruct (documented_path_api op) as [rest Hrest].
  exists rest.
  replace (base +:+ "//api/" +:+ rest)
    with (baseUrl (this w) +:+ documented_path op).
  - apply invoke_issues.
  - by rewrite Hbase, Hrest, string_app_assoc.
Qed.
End Coverage.

(** * The further properties on the sample exchanges *)

(** X1, witness: a 400 whose body is [{"detail": false}]. *)
Lemma falsy_detail_gives_status_witness :
  ok Sample.false_detail = false ∧
  to_boolean (JBool (num:=Z) false) = false ∧
  (invoke (Sample.answering (inr Sample.false_detail))
     (DeleteCall "abc123") Sample.api).1 = Throw (Error "HTTP 400").
Proof.
  split; [reflexivity |]. split; [reflexivity |].
  apply (falsy_detail_gives_status
           (Sample.answering (inr Sample.false_detail)) Sample.false_detail
           {[ "detail" := JBool false ]} (JBool false)
           eq_refl eq_refl eq_refl eq_refl).
  reflexivity.
Defined.

(** X2, witness: a 500 whose body is [null]. *)
Lemma null_body_raises_type_error_witness :
  ok Sample.null_body = false ∧
  (invoke (Sample.answering (inr Sample.null_body))
     (GetFullReport "abc123") Sample.api).1 =
    Throw (TypeError_property "detail") ∧
  logged (trace (invoke (Sample.answering (inr Sample.null_body))
                   (GetFullReport "abc123") Sample.api).2) =
    [("API Error [/api/processing/full-report/abc123]:",
      TypeError_property "detail")].
Proof.
  split; [reflexivity |].
  apply (null_body_raises_type_error
           (Sample.answering (inr Sample.null_body)) Sample.null_body
           eq_refl eq_refl).
  reflexivity.
Defined.

(** X3, witness: the upload answered by the 502 whose body is not JSON. *)
Lemma non_success_error_kinds_witness :
  ok Sample.bad_gateway = false ∧
  ((∃ message,
      (invoke (Sample.answering (inr Sample.bad_gateway))
         (UploadAudio (num:=Z) "call.wav") Sample.api).1 =
      Throw (Error message)) ∨
   (body_json Sample.bad_gateway = inr JNull ∧
    (invoke (Sample.answering (inr Sample.bad_gateway))
       (UploadAudio (num:=Z) "call.wav") Sample.api).1 =
    Throw (TypeError_property "detail")) ∨
   (invoke (Sample.answering (inr Sample.bad_gateway))
      (UploadAudio (num:=Z) "call.wav") Sample.api).1 =
   Throw TypeError_primitive).
Proof.
  split; [reflexivity |].
  apply (non_success_error_kinds
           (Sample.answering (inr Sample.bad_gateway)) Sample.bad_gateway
           eq_refl).
  reflexivity.
Defined.

(** X4, witness: the 422 whose [detail] lists an object, a string and
    [null]. *)
Lemma array_detail_is_joined_witness :
  ok Sample.unprocessable = false ∧
  (invoke (Sample.answering (inr Sample.unprocessable))
     (UploadAudio (num:=Z) "call.wav") Sample.api).1 =
    Throw (Error "[object Object],value is not a valid integer,").
Proof.
  split; [reflexivity |].
  apply (array_detail_is_joined
           (Sample.answering (inr Sample.unprocessable))
           Sample.unprocessable
           {[ "detail" := JArray Sample.validation_errors ]}
           Sample.validation_errors
           ["[object Object]"; "value is not a valid integer"; ""]
           eq_refl eq_refl eq_refl).
  - repeat constructor.
  - reflexivity.
Defined.


(** X9, witness: the dashboard answered by a 503 and the recent calls by
    a 500, neither with a [detail]. *)
Lemma distinct_status_distinct_error_witness :
  status Sample.no_detail ≠ status Sample.internal_error ∧
  (invoke Sample.by_path (GetDashboardStats None) Sample.api).1 ≠
  (invoke Sample.by_path (GetRecentCalls None) Sample.api).1.
Proof.
  split; [discriminate |].
  refine (distinct_status_distinct_error Sample.by_path
            Sample.no_detail Sample.internal_error
            (JObject {[ "error" := JString "busy" ]})
            (JObject {[ "error" := JString "boom" ]})
            eq_refl eq_refl _ eq_refl eq_refl _ _
            (GetDashboardStats None) Sample.api
            (GetRecentCalls None) Sample.api eq_refl eq_refl).
  - split; [discriminate |]. intros o [= <-]. reflexivity.
  - split; [discriminate |]. intros o [= <-]. reflexivity.
  - discriminate.
Defined.

(** X11, witness: [getTranscript] on a client built with
    [https://echosense.example/]. *)
Lemma trailing_slash_not_normalised_witness :
  baseUrl (this Sample.slashed) = "https://echosense.example/" ∧
  ∃ rest,
    issues (invoke (Sample.answering (inr Sample.deleted))
              (GetTranscript "abc123"))
      Sample.slashed "GET" ("https://echosense.example//api/" +:+ rest).
Proof.
  split; [reflexivity |].
  apply (trailing_slash_not_normalised
           (Sample.answering (inr Sample.deleted))
           "https://echosense.example" (GetTranscript "abc123")
           Sample.slashed).
  reflexivity.
Defined.
